(** * js-util: the console logger, embedded in Rocq

    The logger formats a (type, message) pair into a decorated line and hands
    it to an injected output function; logJSON does the same for a value,
    serialized, colorized and re-indented under the prefix column.

    Strings are JavaScript strings; they are modelled by [string], one
    [ascii] per code unit, which covers every string whose code units are
    below 256.  [toUpperCase] is the ASCII part of the JavaScript function.
    The values given to logJSON are null, booleans, integers, strings, arrays
    and objects.  Callbacks held by a logger are computations of the effect
    monad [M]: they may record events and they may throw.  Built-in functions
    of the language (replaceAll, regular expressions, JSON.stringify,
    JSON.parse) are modelled after ECMA-262. *)

From Stdlib Require Import String Ascii List ZArith Lia Bool Arith.
From Stdlib Require Import DecimalString DecimalN.
Import ListNotations.
Open Scope string_scope.

(** ** JavaScript strings *)

Module JS.

Definition LF : string := String "010" "".
Definition CR : string := String "013" "".
Definition ESC : string := String "027" "".
Definition DQ : string := String "034" "".

(* what a call can throw: the RangeError of the language, or whatever a
   callback of the host throws *)
Inductive error : Type :=
| RangeError
| Thrown (what : string).

(* one code unit of String.prototype.toUpperCase, ASCII range *)
Definition upperChar (c : ascii) : ascii :=
  let n := nat_of_ascii c in
  if ((97 <=? n) && (n <=? 122))%nat then ascii_of_nat (n - 32) else c.

Fixpoint toUpperCase (s : string) : string :=
  match s with
  | "" => ""
  | String c s' => String (upperChar c) (toUpperCase s')
  end.

Fixpoint repeatN (s : string) (n : nat) : string :=
  match n with
  | O => ""
  | S n' => s ++ repeatN s n'
  end.

(* String.prototype.repeat: a negative count is a RangeError *)
Definition repeat (s : string) (count : Z) : error + string :=
  if (count <? 0)%Z then inl RangeError else inr (repeatN s (Z.to_nat count)).

Fixpoint dropN (n : nat) (s : string) : string :=
  match n, s with
  | O, _ => s
  | S n', String _ s' => dropN n' s'
  | S _, "" => ""
  end.

Fixpoint takeN (n : nat) (s : string) : string :=
  match n, s with
  | O, _ => ""
  | S n', String c s' => String c (takeN n' s')
  | S _, "" => ""
  end.

Fixpoint join (sep : string) (parts : list string) : string :=
  match parts with
  | [] => ""
  | [p] => p
  | p :: rest => p ++ sep ++ join sep rest
  end.

(* GetSubstitution of ECMA-262 for a string pattern: there are no captures,
   so only $$, $&, $` and $' are special; $1, $< and a lone $ stay as they
   are.  [before] and [after] are the parts of the subject around the
   match. *)
Fixpoint GetSubstitution (matched before after template : string) : string :=
  match template with
  | "" => ""
  | String c rest =>
      if Ascii.eqb c "$" then
        match rest with
        | "" => String c ""
        | String d rest' =>
            if Ascii.eqb d "$" then String "$" (GetSubstitution matched before after rest')
            else if Ascii.eqb d "&" then matched ++ GetSubstitution matched before after rest'
            else if Ascii.eqb d "`" then before ++ GetSubstitution matched before after rest'
            else if Ascii.eqb d "'" then after ++ GetSubstitution matched before after rest'
            else String c (GetSubstitution matched before after rest)
        end
      else String c (GetSubstitution matched before after rest)
  end.

(* String.prototype.replaceAll with a string pattern and a string
   replacement: the occurrences are found left to right without overlap,
   [skip] counts the code units of the current occurrence still to pass,
   [before] is the subject up to the current position.  An empty pattern
   occurs at every position, the end included. *)
Fixpoint replaceAllFrom (search template before : string) (skip : nat) (rest : string)
  {struct rest} : string :=
  match rest with
  | "" =>
      match skip with
      | O => if (search =? "") then GetSubstitution search before "" template else ""
      | S _ => ""
      end
  | String c rest' =>
      match skip with
      | S k => replaceAllFrom search template (before ++ String c "") k rest'
      | O =>
          if (search =? "") then
            GetSubstitution search before rest template
              ++ String c (replaceAllFrom search template (before ++ String c "") 0 rest')
          else if prefix search rest then
            GetSubstitution search before (dropN (String.length search) rest) template
              ++ replaceAllFrom search template (before ++ String c "") (String.length search - 1) rest'
          else String c (replaceAllFrom search template (before ++ String c "") 0 rest')
      end
  end.

Definition replaceAll (s search template : string) : string :=
  replaceAllFrom search template "" 0 s.

Fixpoint count (c : ascii) (s : string) : nat :=
  match s with
  | "" => 0
  | String d s' => (if Ascii.eqb c d then 1 else 0) + count c s'
  end.

End JS.

(** ** Regular expressions

    A backtracking matcher in the style of ECMA-262: a matcher takes the rest
    of the subject and a continuation, and answers with the rest of the
    subject after the whole match.  Quantifiers are greedy, and an iteration
    that consumes nothing is refused. *)

Module Regex.

Inductive regex : Type :=
| Chr (c : ascii)
| Cls (p : ascii -> bool)
| Seq (r1 r2 : regex)
| Alt (r1 r2 : regex)
| Star (r : regex)
| Opt (r : regex).

Definition Plus (r : regex) : regex := Seq r (Star r).

Fixpoint Lit (s : string) : regex :=
  match s with
  | "" => Opt (Cls (fun _ => false))
  | String c "" => Chr c
  | String c s' => Seq (Chr c) (Lit s')
  end.

Fixpoint run (r : regex) (s : string) (k : string -> option string) {struct r}
  : option string :=
  match r with
  | Chr c =>
      match s with
      | String d s' => if Ascii.eqb c d then k s' else None
      | "" => None
      end
  | Cls p =>
      match s with
      | String d s' => if p d then k s' else None
      | "" => None
      end
  | Seq r1 r2 => run r1 s (fun s' => run r2 s' k)
  | Alt r1 r2 =>
      match run r1 s k with
      | Some out => Some out
      | None => run r2 s k
      end
  | Opt r1 =>
      match run r1 s (fun s' =>
              if (String.length s' <? String.length s)%nat then k s' else None) with
      | Some out => Some out
      | None => k s
      end
  | Star r1 =>
      (fix loop (fuel : nat) (s : string) {struct fuel} : option string :=
         match fuel with
         | O => k s
         | S fuel' =>
             match run r1 s (fun s' =>
                     if (String.length s' <? String.length s)%nat
                     then loop fuel' s' else None) with
             | Some out => Some out
             | None => k s
             end
         end) (String.length s) s
  end.

(* the matches of a global regex over a subject, left to right: after a
   match the scan resumes at its end (one further on when it is empty),
   after a failure one code unit further on *)
Fixpoint scan (fuel : nat) (r : regex) (s : string) {struct fuel} : list string :=
  match fuel with
  | O => []
  | S fuel' =>
      match run r s (fun s' => Some s') with
      | Some s' =>
          JS.takeN (String.length s - String.length s') s ::
            (if (String.length s' <? String.length s)%nat then scan fuel' r s'
             else match s with
                  | "" => []
                  | String _ t => scan fuel' r t
                  end)
      | None =>
          match s with
          | "" => []
          | String _ t => scan fuel' r t
          end
      end
  end.

Definition matches (r : regex) (s : string) : list string :=
  scan (S (String.length s)) r s.

Definition inRange (lo hi : nat) (c : ascii) : bool :=
  ((lo <=? nat_of_ascii c) && (nat_of_ascii c <=? hi))%nat.

(* \d *)
Definition digit : regex := Cls (inRange 48 57).

(* \s on code units below 256 *)
Definition whitespace : regex :=
  Cls (fun c => inRange 9 13 c || Ascii.eqb c " " || Ascii.eqb c "160").

(* . without the s flag *)
Definition anyChar : regex :=
  Cls (fun c => negb (Ascii.eqb c "010" || Ascii.eqb c "013")).

(* the class of every code unit but the quote and the backslash *)
Definition plainChar : regex :=
  Cls (fun c => negb (Ascii.eqb c "034" || Ascii.eqb c "\")).

End Regex.

(** ** JSON *)

Module JSON.

Import JS.

Unset Elimination Schemes.

Inductive value : Type :=
| JNull
| JBool (b : bool)
| JNumber (n : Z)
| JString (s : string)
| JArray (elements : list value)
| JObject (members : list (string * value)).

Set Elimination Schemes.

Definition hexDigit (n : nat) : ascii :=
  if (n <? 10)%nat then ascii_of_nat (48 + n) else ascii_of_nat (87 + n).

(* \uXXXX, lowercase, of a code unit *)
Definition unicodeEscape (c : ascii) : string :=
  let n := nat_of_ascii c in
  "\u00" ++ String (hexDigit (n / 16)) (String (hexDigit (n mod 16)) "").

Definition quoteChar (c : ascii) : string :=
  if Ascii.eqb c "008" then "\b"
  else if Ascii.eqb c "009" then "\t"
  else if Ascii.eqb c "010" then "\n"
  else if Ascii.eqb c "012" then "\f"
  else if Ascii.eqb c "013" then "\r"
  else if Ascii.eqb c "034" then "\" ++ DQ
  else if Ascii.eqb c "\" then "\\"
  else if (nat_of_ascii c <? 32)%nat then unicodeEscape c
  else String c "".

Fixpoint quoteBody (s : string) : string :=
  match s with
  | "" => ""
  | String c s' => quoteChar c ++ quoteBody s'
  end.

Definition QuoteJSONString (s : string) : string := DQ ++ quoteBody s ++ DQ.

(* Number::toString of an integer: its decimal numeral, with a minus sign
   when negative (JavaScript writes integers this way below 10^21 in
   magnitude) *)
Definition NumberToString (n : Z) : string :=
  (if (n <? 0)%Z then "-" else "")
    ++ DecimalString.NilZero.string_of_uint (N.to_uint (Z.abs_N n)).

(* the object and array forms of SerializeJSONObject and SerializeJSONArray *)
Definition wrap (opening closing gap stepback : string) (partial : list string) : string :=
  match partial with
  | [] => opening ++ closing
  | _ =>
      if (gap =? "") then opening ++ join "," partial ++ closing
      else
        let indent := stepback ++ gap in
        opening ++ LF ++ indent ++ join ("," ++ LF ++ indent) partial
          ++ LF ++ stepback ++ closing
  end.

Fixpoint SerializeJSONProperty (gap indent : string) (v : value) {struct v} : string :=
  match v with
  | JNull => "null"
  | JBool true => "true"
  | JBool false => "false"
  | JNumber n => NumberToString n
  | JString s => QuoteJSONString s
  | JArray elements =>
      wrap "[" "]" gap indent
        (map (SerializeJSONProperty gap (indent ++ gap)) elements)
  | JObject members =>
      wrap "{" "}" gap indent
        (map (fun kv =>
                QuoteJSONString (fst kv) ++ ":" ++ (if (gap =? "") then "" else " ")
                  ++ SerializeJSONProperty gap (indent ++ gap) (snd kv))
             members)
  end.

(* the gap of a numeric space argument; [None] for an argument left out *)
Definition gapOf (space : option Z) : string :=
  match space with
  | None => ""
  | Some n => if (n <? 1)%Z then "" else repeatN " " (Z.to_nat (Z.min 10 n))
  end.

(* JSON.stringify(value, null, space) *)
Definition stringify (v : value) (space : option Z) : string :=
  SerializeJSONProperty (gapOf space) "" v.

(** JSON.parse, on texts whose numbers are integers and whose escapes
    denote code units below 256; any other text is refused. *)

















End JSON.

(** ** Effects: what a logger does to the world *)

Inductive LoggerType : Type := info | warn | error | debug | success | misc.

Inductive LineType : Type := new | current | overlap | doubleNew | space | replace.

(* the string a LoggerType is in the source *)
Definition typeName (t : LoggerType) : string :=
  match t with
  | info => "info"
  | warn => "warn"
  | error => "error"
  | debug => "debug"
  | success => "success"
  | misc => "misc"
  end.

Inductive event : Type :=
| Wrote (text : string)
| Logged (type : LoggerType) (message : string).

(* a computation reads the events so far and returns a value or throws,
   together with the events it leaves *)
Definition M (A : Type) : Type := list event -> (JS.error + A) * list event.

Definition ret {A} (a : A) : M A := fun tr => (inr a, tr).

Definition throw {A} (e : JS.error) : M A := fun tr => (inl e, tr).

Definition bind {A B} (m : M A) (k : A -> M B) : M B :=
  fun tr =>
    match m tr with
    | (inr a, tr') => k a tr'
    | (inl e, tr') => (inl e, tr')
    end.

Definition emit (e : event) : M unit := fun tr => (inr tt, (tr ++ [e])%list).

Definition lift {A} (r : JS.error + A) : M A :=
  match r with
  | inl e => throw e
  | inr a => ret a
  end.

Notation "x <- m ;; k" := (bind m (fun x => k))
  (at level 61, m at next level, right associativity).
Notation "m ;;; k" := (bind m (fun _ => k))
  (at level 61, right associativity).

(* the capturing sink and the recording observer of the scenarios *)
Definition captureSink : string -> M unit := fun text => emit (Wrote text).

Definition recordOnLog : LoggerType -> string -> M unit :=
  fun type message => emit (Logged type message).

Definition written (tr : list event) : list string :=
  flat_map (fun e => match e with Wrote s => [s] | Logged _ _ => [] end) tr.

(** ** The logger *)

Definition loggerTypes : list LoggerType := [info; warn; error; debug; success; misc].

Definition lengthZ (s : string) : Z := Z.of_nat (String.length s).

(* Math.max over a list that is not empty *)
Definition largestLoggerTypeLength : Z :=
  match map (fun type => lengthZ (typeName type)) loggerTypes with
  | [] => 0%Z
  | n :: ns => fold_left Z.max ns n
  end.

Definition smallestLoggerTypeLength : Z :=
  match map (fun type => lengthZ (typeName type)) loggerTypes with
  | [] => 0%Z
  | n :: ns => fold_left Z.min ns n
  end.

Record Logger : Type := mkLogger {
  useColor : bool;
  consoleFunction : string -> M unit;
  onLog : option (LoggerType -> string -> M unit);
  getPrefixForTypeOverride :
    option (LoggerType -> option bool -> option string -> M string)
}.

(* new Logger(useColor, consoleFunction) *)
Definition newLogger (useColor : bool) (consoleFunction : string -> M unit) : Logger :=
  mkLogger useColor consoleFunction None None.

Definition escapeSequence (lineType : LineType) : string :=
  match lineType with
  | new => JS.LF
  | current => ""
  | overlap => JS.CR
  | doubleNew => JS.LF ++ JS.LF
  | space => " "
  | replace => JS.ESC ++ "[2K" ++ JS.CR
  end.

(* [None] for an argument left out *)
Definition plain (l : Logger) (message : string) (lineType : option LineType) : M unit :=
  let lineType := match lineType with Some t => t | None => new end in
  consoleFunction l (escapeSequence lineType ++ message).

Definition typeColor (type : LoggerType) : string :=
  match type with
  | info => JS.ESC ++ "[34m"
  | warn => JS.ESC ++ "[33m"
  | error => JS.ESC ++ "[31m"
  | debug => JS.ESC ++ "[36m"
  | success => JS.ESC ++ "[32m"
  | misc => JS.ESC ++ "[37m"
  end.

Definition resetCode : string := JS.ESC ++ "[0m".

Definition colorType (type : LoggerType) (typeString : string) : string :=
  typeColor type ++ typeString ++ resetCode.

Definition getPrefixForType (l : Logger) (type : LoggerType)
    (useColorOverride : option bool) (overridePrefixText : option string) : M string :=
  match getPrefixForTypeOverride l with
  | Some override => override type useColorOverride overridePrefixText
  | None =>
      let prefixText :=
        JS.toUpperCase (match overridePrefixText with Some t => t | None => typeName type end) in
      padding <- lift (JS.repeat " " (largestLoggerTypeLength - lengthZ prefixText)) ;;
      let prefixString := prefixText ++ padding ++ " |" in
      ret (if match useColorOverride with None => useColor l | Some c => c end
           then colorType type prefixString
           else prefixString)
  end.

Definition notify (l : Logger) (type : LoggerType) (message : string) : M unit :=
  match onLog l with
  | Some callback => callback type message
  | None => ret tt
  end.

Definition log (l : Logger) (type : LoggerType) (message : string) : M unit :=
  notify l type message ;;;
  prefixString <- getPrefixForType l type None None ;;
  plain l (prefixString ++ " " ++ message) None.

(** *** logJSON *)

(* the body of a quoted string: plain code units and backslash pairs *)
Definition stringBody : Regex.regex :=
  Regex.Seq (Regex.Star Regex.plainChar)
    (Regex.Star (Regex.Seq (Regex.Chr "\")
                   (Regex.Seq Regex.anyChar (Regex.Star Regex.plainChar)))).

Definition keyRegex : Regex.regex :=
  Regex.Seq (Regex.Chr "034")
    (Regex.Seq stringBody
       (Regex.Seq (Regex.Chr "034")
          (Regex.Seq (Regex.Star Regex.whitespace) (Regex.Chr ":")))).

Definition stringRegex : Regex.regex :=
  Regex.Seq (Regex.Chr "034") (Regex.Seq stringBody (Regex.Chr "034")).

Definition numberRegex : Regex.regex :=
  Regex.Seq (Regex.Opt (Regex.Chr "-"))
    (Regex.Seq (Regex.Plus Regex.digit)
       (Regex.Seq (Regex.Opt (Regex.Seq (Regex.Chr ".") (Regex.Plus Regex.digit)))
          (Regex.Opt
             (Regex.Seq (Regex.Cls (fun c => Ascii.eqb c "e" || Ascii.eqb c "E"))
                (Regex.Seq (Regex.Opt (Regex.Cls (fun c => Ascii.eqb c "+" || Ascii.eqb c "-")))
                   (Regex.Plus Regex.digit)))))).

Definition booleanRegex : Regex.regex := Regex.Alt (Regex.Lit "true") (Regex.Lit "false").

Definition nullRegex : Regex.regex := Regex.Lit "null".

(* the colors object of logJSON, in the order of its entries *)
Definition colors : list (string * (string * Regex.regex)) :=
  [ ("key", (JS.ESC ++ "[34m", keyRegex));
    ("string", (JS.ESC ++ "[32m", stringRegex));
    ("number", (JS.ESC ++ "[33m", numberRegex));
    ("boolean", (JS.ESC ++ "[33m", booleanRegex));
    ("null", (JS.ESC ++ "[33m", nullRegex)) ].

(* the matches array after the first loop: (text, color) *)
Definition collectMatches (jsonText : string) : list (string * string) :=
  flat_map (fun entry =>
              map (fun text => (text, fst (snd entry)))
                  (Regex.matches (snd (snd entry)) jsonText))
           colors.

(* the second loop *)
Definition applyMatches (matches : list (string * string)) (jsonText : string) : string :=
  fold_left (fun jsonText m =>
               JS.replaceAll jsonText (fst m) (snd m ++ fst m ++ resetCode))
            matches jsonText.

Definition colorize (jsonText : string) : string :=
  applyMatches (collectMatches jsonText) jsonText.

Definition logJSON (l : Logger) (type : LoggerType) (objectOrArray : JSON.value)
    (indentLength : option Z) : M unit :=
  let indentLength := match indentLength with Some n => n | None => 4%Z end in
  notify l type (JSON.stringify objectOrArray None) ;;;
  let jsonText := JSON.stringify objectOrArray (Some indentLength) in
  let jsonText := if useColor l then colorize jsonText else jsonText in
  first <- getPrefixForType l type None None ;;
  continued <- getPrefixForType l type None (Some "") ;;
  plain l (first ++ " " ++ JS.replaceAll jsonText JS.LF (JS.LF ++ continued ++ " ")) None.

(* the logger with default settings; its sink is the standard output of the
   process, whose writes are the [Wrote] events *)
Definition defaultLogger : Logger := newLogger true captureSink.

(** ** The bracketed variant (src/src/log.ts) *)

Module Legacy.

Record Logger : Type := mkLogger {
  useColor : bool;
  consoleFunction : string -> M unit;
  onLog : option (LoggerType -> string -> M unit);
  getPrefixForTypeOverride : option (LoggerType -> option bool -> M string)
}.

Definition plain (l : Logger) (message : string) (lineType : option LineType) : M unit :=
  let lineType := match lineType with Some t => t | None => new end in
  consoleFunction l (escapeSequence lineType ++ message).

Definition getPrefixForType (l : Logger) (type : LoggerType)
    (useColorOverride : option bool) : M string :=
  match getPrefixForTypeOverride l with
  | Some override => override type useColorOverride
  | None =>
      ret (if match useColorOverride with None => useColor l | Some c => c end
           then colorType type ("[" ++ typeName type ++ "]:")
           else "[" ++ typeName type ++ "]:")
  end.

Definition log (l : Logger) (type : LoggerType) (message : string) : M unit :=
  match onLog l with
  | Some callback => callback type message
  | None => ret tt
  end ;;;
  prefixString <- getPrefixForType l type None ;;
  plain l (prefixString ++ " " ++ message) None.

Definition DefaultLogger : Logger := mkLogger true captureSink None None.

End Legacy.

(** ** Vocabulary of the statements *)

(* the text a prefix is made from *)
Definition prefixTextOf (type : LoggerType) (overridePrefixText : option string) : string :=
  JS.toUpperCase (match overridePrefixText with Some t => t | None => typeName type end).

(* the label, the spaces up to the widest type name, and the bar *)
Definition padded (prefixText : string) : string :=
  prefixText
    ++ JS.repeatN " " (Z.to_nat (largestLoggerTypeLength - lengthZ prefixText))
    ++ " |".

Definition effectiveColor (l : Logger) (useColorOverride : option bool) : bool :=
  match useColorOverride with
  | None => useColor l
  | Some c => c
  end.

Definition decorated (l : Logger) (type : LoggerType) (useColorOverride : option bool)
    (prefixText : string) : string :=
  if effectiveColor l useColorOverride then colorType type (padded prefixText)
  else padded prefixText.

Definition withoutOnLog (l : Logger) : Logger :=
  mkLogger (useColor l) (consoleFunction l) None (getPrefixForTypeOverride l).


(* the text logJSON re-indents: the indented serialization, colorized when the
   logger uses color *)
Definition jsonTextOf (l : Logger) (v : JSON.value) (indentLength : option Z) : string :=
  let jsonText :=
    JSON.stringify v (Some (match indentLength with Some n => n | None => 4%Z end)) in
  if useColor l then colorize jsonText else jsonText.

(* the prefix logJSON puts after every newline *)
Definition continuation (l : Logger) (type : LoggerType) : string :=
  decorated l type None (prefixTextOf type (Some "")).

(* [q] put after every newline of [text] *)
Fixpoint afterEachNewline (q text : string) : string :=
  match text with
  | "" => ""
  | String c rest =>
      if Ascii.eqb c "010" then String c (q ++ afterEachNewline q rest)
      else String c (afterEachNewline q rest)
  end.

Fixpoint allChars (P : ascii -> bool) (s : string) : bool :=
  match s with
  | "" => true
  | String c rest => P c && allChars P rest
  end.

Definition differsFrom (c : ascii) : ascii -> bool := fun d => negb (Ascii.eqb c d).

(* the replacement of the specification: every occurrence of the literal
   text, left to right, gives way to the replacement as it stands *)
Fixpoint replaceEveryFrom (search replacement : string) (skip : nat) (text : string)
  {struct text} : string :=
  match text with
  | "" =>
      match skip with
      | O => if (search =? "") then replacement else ""
      | S _ => ""
      end
  | String c rest =>
      match skip with
      | S k => replaceEveryFrom search replacement k rest
      | O =>
          if (search =? "") then
            replacement ++ String c (replaceEveryFrom search replacement 0 rest)
          else if prefix search text then
            replacement ++ replaceEveryFrom search replacement (String.length search - 1) rest
          else String c (replaceEveryFrom search replacement 0 rest)
      end
  end.

Definition replaceEvery (text search replacement : string) : string :=
  replaceEveryFrom search replacement 0 text.

(* the colorization of the specification: the recorded matches, in order,
   each replaced everywhere by color, literal text, reset *)
Definition colorizeAsSpecified (jsonText : string) : string :=
  fold_left (fun text m => replaceEvery text (fst m) (snd m ++ fst m ++ resetCode))
            (collectMatches jsonText) jsonText.











(* an observer and a sink that throw *)
Definition failingOnLog : LoggerType -> string -> M unit :=
  fun _ _ => throw (JS.Thrown "observer").

Definition failingSink : string -> M unit :=
  fun _ => throw (JS.Thrown "sink").

(* a regular expression that cannot match the empty string *)
Fixpoint nonNullable (r : Regex.regex) : bool :=
  match r with
  | Regex.Chr _ => true
  | Regex.Cls _ => true
  | Regex.Seq r1 r2 => nonNullable r1 || nonNullable r2
  | Regex.Alt r1 r2 => nonNullable r1 && nonNullable r2
  | Regex.Star _ => false
  | Regex.Opt _ => false
  end.

(* a logger whose prefix override function always throws *)
Definition brokenPrefixLogger : Logger :=
  mkLogger false captureSink (Some recordOnLog)
    (Some (fun _ _ _ => throw (JS.Thrown "no prefix"))).

(** * Properties *)

Lemma largest_is_7 : largestLoggerTypeLength = 7%Z.
Proof. reflexivity. Qed.

Lemma smallest_is_4 : smallestLoggerTypeLength = 4%Z.
Proof. reflexivity. Qed.

(** ** Strings *)

Lemma append_assoc (a b c : string) : (a ++ b) ++ c = a ++ b ++ c.
Proof. induction a as [| x a IH]; simpl; [reflexivity | now rewrite IH]. Qed.


Lemma length_append (a b : string) :
  String.length (a ++ b) = String.length a + String.length b.
Proof. induction a as [| x a IH]; simpl; [reflexivity | now rewrite IH]. Qed.

Lemma prefix_append (q x : string) : prefix q (q ++ x) = true.
Proof.
  induction q as [| c q IH]; simpl.
  - now destruct x.
  - destruct (ascii_dec c c) as [_ | Hne]; [exact IH | now elim Hne].
Qed.

Lemma prefix_head_differs (c d : ascii) (q x : string) :
  c <> d -> prefix (String c q) (String d x) = false.
Proof. intros Hne. simpl. now destruct (ascii_dec c d). Qed.


Lemma count_append (c : ascii) (a b : string) :
  JS.count c (a ++ b) = JS.count c a + JS.count c b.
Proof. induction a as [| x a IH]; simpl; [reflexivity | rewrite IH; lia]. Qed.

Lemma allChars_append (P : ascii -> bool) (a b : string) :
  allChars P (a ++ b) = allChars P a && allChars P b.
Proof.
  induction a as [| x a IH]; simpl; [reflexivity |].
  now rewrite IH, andb_assoc.
Qed.

Lemma count_zero_allChars (c : ascii) (s : string) :
  JS.count c s = 0 <-> allChars (differsFrom c) s = true.
Proof.
  unfold differsFrom. induction s as [| d s IH]; simpl; [tauto |].
  destruct (Ascii.eqb c d); simpl; [split; [lia | discriminate] | exact IH].
Qed.

Lemma allChars_repeatN (P : ascii -> bool) (s : string) (n : nat) :
  allChars P s = true -> allChars P (JS.repeatN s n) = true.
Proof.
  intros Hs. induction n as [| n IH]; simpl; [reflexivity |].
  now rewrite allChars_append, Hs, IH.
Qed.

Lemma allChars_join (P : ascii -> bool) (sep : string) (parts : list string) :
  allChars P sep = true ->
  Forall (fun part => allChars P part = true) parts ->
  allChars P (JS.join sep parts) = true.
Proof.
  intros Hsep Hparts. induction Hparts as [| part rest Hpart Hrest IH]; [reflexivity |].
  destruct rest as [| part' rest']; [exact Hpart |].
  change (JS.join sep (part :: part' :: rest'))
    with (part ++ sep ++ JS.join sep (part' :: rest')).
  now rewrite !allChars_append, Hpart, Hsep, IH.
Qed.

Lemma allChars_afterEachNewline (P : ascii -> bool) (q text : string) :
  allChars P q = true -> allChars P text = true ->
  allChars P (afterEachNewline q text) = true.
Proof.
  intros Hq. induction text as [| c text IH]; simpl; [reflexivity |].
  intros Hct. apply andb_prop in Hct as [Hc Ht].
  destruct (Ascii.eqb c "010"); simpl; rewrite Hc; simpl.
  - rewrite allChars_append, Hq. now apply IH.
  - now apply IH.
Qed.

(** *** replaceAll *)

Lemma GetSubstitution_no_dollar (matched before after template : string) :
  JS.count "$" template = 0 ->
  JS.GetSubstitution matched before after template = template.
Proof.
  induction template as [| c rest IH]; [reflexivity |].
  cbn [JS.count JS.GetSubstitution].
  rewrite (Ascii.eqb_sym c "$").
  destruct (Ascii.eqb "$" c); [discriminate |].
  intros Hrest. now rewrite IH.
Qed.


(* replacing every newline by a newline and [q] puts [q] after each of them *)
Lemma replaceAll_newline (q text : string) :
  JS.count "$" q = 0 ->
  JS.replaceAll text JS.LF (JS.LF ++ q) = afterEachNewline q text.
Proof.
  intros Hq. unfold JS.replaceAll. generalize "" as before.
  induction text as [| c text IH]; intros before; [reflexivity |].
  cbn [JS.replaceAllFrom afterEachNewline].
  change (JS.LF =? "") with false. cbv iota.
  destruct (Ascii.eqb_spec c "010") as [-> | Hne].
  - change (prefix JS.LF (String "010" text)) with (prefix "" text).
    replace (prefix "" text) with true by now destruct text.
    rewrite GetSubstitution_no_dollar by exact Hq.
    change (String.length JS.LF - 1) with 0.
    rewrite IH. reflexivity.
  - unfold JS.LF. rewrite prefix_head_differs by congruence.
    now rewrite IH.
Qed.


Lemma append_split_no_newline (q x a b : string) :
  JS.count "010" q = 0 ->
  q ++ x = a ++ JS.LF ++ b ->
  exists a', a = q ++ a' /\ x = a' ++ JS.LF ++ b.
Proof.
  revert a. induction q as [| c q IH]; intros a Hq Heq.
  - exists a. now split.
  - cbn [JS.count] in Hq.
    destruct (Ascii.eqb_spec "010" c) as [<- | Hne]; [discriminate |].
    destruct a as [| d a]; cbn [append JS.LF] in Heq.
    + injection Heq as Hc _. congruence.
    + injection Heq as -> Heq.
      destruct (IH a Hq Heq) as (a' & -> & ->). exists a'. now split.
Qed.

Lemma newline_followed (q text a b : string) :
  JS.count "010" q = 0 ->
  afterEachNewline q text = a ++ JS.LF ++ b ->
  prefix q b = true.
Proof.
  intros Hq. revert a. induction text as [| c text IH]; intros a Heq.
  - destruct a; discriminate Heq.
  - cbn [afterEachNewline] in Heq.
    destruct (Ascii.eqb_spec c "010") as [-> | Hne].
    + destruct a as [| d a]; cbn [append JS.LF] in Heq.
      * injection Heq as <-. apply prefix_append.
      * injection Heq as _ Heq.
        destruct (append_split_no_newline _ _ _ _ Hq Heq) as (a' & _ & Hrest).
        exact (IH a' Hrest).
    + destruct a as [| d a]; cbn [append JS.LF] in Heq.
      * injection Heq as Hc _. congruence.
      * injection Heq as _ Heq. exact (IH a Heq).
Qed.

(** ** The prefix *)

Lemma getPrefixForType_fits (l : Logger) type c text tr :
  getPrefixForTypeOverride l = None ->
  (lengthZ (prefixTextOf type text) <= largestLoggerTypeLength)%Z ->
  getPrefixForType l type c text tr
  = (inr (decorated l type c (prefixTextOf type text)), tr).
Proof.
  intros Hov Hlen.
  unfold getPrefixForType, decorated, effectiveColor, padded, prefixTextOf in *.
  rewrite Hov. unfold bind, lift, JS.repeat.
  destruct (Z.ltb_spec (largestLoggerTypeLength
    - lengthZ (JS.toUpperCase match text with Some t => t | None => typeName type end)) 0).
  - lia.
  - reflexivity.
Qed.

Lemma getPrefixForType_too_long (l : Logger) type c text tr :
  getPrefixForTypeOverride l = None ->
  (largestLoggerTypeLength < lengthZ (prefixTextOf type text))%Z ->
  getPrefixForType l type c text tr = (inl JS.RangeError, tr).
Proof.
  intros Hov Hlen.
  unfold getPrefixForType, prefixTextOf in *.
  rewrite Hov. unfold bind, lift, JS.repeat.
  destruct (Z.ltb_spec (largestLoggerTypeLength
    - lengthZ (JS.toUpperCase match text with Some t => t | None => typeName type end)) 0).
  - reflexivity.
  - lia.
Qed.

Lemma typeName_fits type : (lengthZ (prefixTextOf type None) <= largestLoggerTypeLength)%Z.
Proof. destruct type; vm_compute; discriminate. Qed.

Lemma empty_text_fits type : (lengthZ (prefixTextOf type (Some "")) <= largestLoggerTypeLength)%Z.
Proof. vm_compute; discriminate. Qed.

Lemma log_unfolded (l : Logger) type message tr :
  getPrefixForTypeOverride l = None ->
  log l type message tr
  = (notify l type message ;;;
     consoleFunction l
       (JS.LF ++ decorated l type None (prefixTextOf type None) ++ " " ++ message)) tr.
Proof.
  intros Hov. unfold log, bind.
  destruct (notify l type message tr) as [[e | []] tr1]; [reflexivity |].
  rewrite (getPrefixForType_fits l type None None tr1 Hov (typeName_fits type)).
  reflexivity.
Qed.

(** C1 (as the code has it): a logger without color and with the capturing
    sink, asked to log the message disk full as an error, writes exactly one
    string: a newline, the label ERROR padded with spaces to the seven
    columns of the widest type name, a space and the bar, a space, and the
    message. *)
Theorem log_error_disk_full :
  forall tr,
    log (newLogger false captureSink) error "disk full" tr
    = (inr tt, (tr ++ [Wrote (String "010" "ERROR   | disk full")])%list).
Proof. intros tr. reflexivity. Qed.

(** C1 as stated fails: the string written is not the one with a single space
    between the label and the bar, whether its first code unit is a newline or
    a backslash followed by the letter n. *)
Lemma log_error_disk_full_not_single_space :
  written (snd (log (newLogger false captureSink) error "disk full" []))
    <> [String "010" "ERROR | disk full"]
  /\ written (snd (log (newLogger false captureSink) error "disk full" []))
    <> ["\nERROR | disk full"].
Proof. split; intros H; vm_compute in H; discriminate H. Qed.



(** C5: plain hands to the sink the escape sequence of the line type followed
    by the message, for every message and line type; the six sequences are
    newline, nothing, carriage return, two newlines, a space, and
    ESC [ 2 K carriage return; a line type left out is new; and plain of x
    with overlap writes carriage return, x. *)
Theorem plain_writes_escape_then_message :
  (forall (l : Logger) (message : string) (lineType : LineType) (tr : list event),
      plain l message (Some lineType) tr
      = consoleFunction l (escapeSequence lineType ++ message) tr)
  /\ (forall (l : Logger) (message : string) (tr : list event),
      plain l message (Some new) tr = consoleFunction l (String "010" message) tr
      /\ plain l message (Some current) tr = consoleFunction l message tr
      /\ plain l message (Some overlap) tr = consoleFunction l (String "013" message) tr
      /\ plain l message (Some doubleNew) tr
         = consoleFunction l (String "010" (String "010" message)) tr
      /\ plain l message (Some space) tr = consoleFunction l (String " " message) tr
      /\ plain l message (Some replace) tr
         = consoleFunction l
             (String "027" (String "[" (String "2" (String "K" (String "013" message))))) tr
      /\ plain l message None tr = plain l message (Some new) tr)
  /\ (forall (useColor : bool) (message : string) (lineType : LineType) (tr : list event),
      plain (newLogger useColor captureSink) message (Some lineType) tr
      = (inr tt, (tr ++ [Wrote (escapeSequence lineType ++ message)])%list))
  /\ (forall (useColor : bool) (tr : list event),
      plain (newLogger useColor captureSink) "x" (Some overlap) tr
      = (inr tt, (tr ++ [Wrote (String "013" "x")])%list)).
Proof.
  split; [reflexivity |].
  split; [intros l message tr; repeat split; reflexivity |].
  split; reflexivity.
Qed.



(** ** JSON texts *)

Lemma value_ind (P : JSON.value -> Prop) :
  P JSON.JNull ->
  (forall b, P (JSON.JBool b)) ->
  (forall n, P (JSON.JNumber n)) ->
  (forall s, P (JSON.JString s)) ->
  (forall elements, Forall P elements -> P (JSON.JArray elements)) ->
  (forall members, Forall (fun kv => P (snd kv)) members -> P (JSON.JObject members)) ->
  forall v, P v.
Proof.
  intros Hnull Hbool Hnumber Hstring Harray Hobject.
  fix IH 1. intros [| b | n | s | elements | members].
  - exact Hnull.
  - apply Hbool.
  - apply Hnumber.
  - apply Hstring.
  - apply Harray. induction elements as [| v rest IHrest]; constructor; [apply IH | exact IHrest].
  - apply Hobject. induction members as [| kv rest IHrest]; constructor; [apply IH | exact IHrest].
Qed.

Section Alphabet.

(* a property of code units that every printable code unit has *)
Variable P : ascii -> bool.
Hypothesis printable : forall d, (32 <=? nat_of_ascii d)%nat = true -> P d = true.

Lemma allChars_quoteChar (d : ascii) : allChars P (JSON.quoteChar d) = true.
Proof.
  destruct d as [[|] [|] [|] [|] [|] [|] [|] [|]];
    match goal with
    | |- allChars P ?q = true =>
        let t := eval vm_compute in q in change q with t
    end;
    cbn [allChars]; rewrite ?printable by reflexivity; reflexivity.
Qed.

Lemma allChars_quoteBody (s : string) : allChars P (JSON.quoteBody s) = true.
Proof.
  induction s as [| c s IH]; [reflexivity |].
  cbn [JSON.quoteBody]. now rewrite allChars_append, allChars_quoteChar, IH.
Qed.

Lemma allChars_QuoteJSONString (s : string) : allChars P (JSON.QuoteJSONString s) = true.
Proof.
  unfold JSON.QuoteJSONString.
  rewrite !allChars_append, allChars_quoteBody.
  cbn. now rewrite printable.
Qed.

Lemma allChars_digits (d : Decimal.uint) :
  allChars P (DecimalString.NilEmpty.string_of_uint d) = true.
Proof.
  induction d; cbn [DecimalString.NilEmpty.string_of_uint allChars];
    rewrite ?IHd, ?printable by reflexivity; reflexivity.
Qed.

Lemma allChars_NumberToString (n : Z) : allChars P (JSON.NumberToString n) = true.
Proof.
  unfold JSON.NumberToString, DecimalString.NilZero.string_of_uint.
  rewrite allChars_append.
  apply andb_true_intro; split.
  - destruct (n <? 0)%Z; cbn; rewrite ?printable by reflexivity; reflexivity.
  - destruct (N.to_uint (Z.abs_N n)) eqn:Hd; rewrite <- ?Hd;
      [cbn; now rewrite printable | apply allChars_digits ..].
Qed.

Lemma allChars_wrap (opening closing gap stepback : string) (partial : list string) :
  allChars P opening = true -> allChars P closing = true ->
  allChars P gap = true -> allChars P stepback = true ->
  (gap = "" \/ P "010" = true) ->
  Forall (fun part => allChars P part = true) partial ->
  allChars P (JSON.wrap opening closing gap stepback partial) = true.
Proof.
  intros Ho Hc Hgap Hstep Hlf Hparts. unfold JSON.wrap.
  destruct partial as [| part rest]; [now rewrite allChars_append, Ho, Hc |].
  destruct (String.eqb_spec gap "") as [-> | Hne].
  - rewrite !allChars_append, Ho, Hc, allChars_join; [reflexivity | | exact Hparts].
    cbn. now rewrite printable.
  - destruct Hlf as [-> | Hlf]; [now elim Hne |].
    assert (Hnl : allChars P JS.LF = true) by (cbn; now rewrite Hlf).
    assert (Hcomma : allChars P "," = true) by (cbn; now rewrite printable).
    rewrite !allChars_append, Ho, Hc, Hnl, Hstep, Hgap, allChars_join;
      [reflexivity | | exact Hparts].
    now rewrite !allChars_append, Hcomma, Hnl, Hstep, Hgap.
Qed.

Lemma allChars_SerializeJSONProperty (gap : string) :
  allChars P gap = true ->
  (gap = "" \/ P "010" = true) ->
  forall v indent,
    allChars P indent = true ->
    allChars P (JSON.SerializeJSONProperty gap indent v) = true.
Proof.
  intros Hgap Hlf.
  induction v as [| b | n | s | elements IH | members IH] using value_ind;
    intros indent Hindent; cbn [JSON.SerializeJSONProperty].
  - cbn. now rewrite !printable.
  - destruct b; cbn; now rewrite !printable.
  - apply allChars_NumberToString.
  - apply allChars_QuoteJSONString.
  - apply allChars_wrap; try assumption; try (cbn; now rewrite printable).
    apply Forall_map. eapply Forall_impl; [| exact IH].
    intros v Hv. apply Hv. now rewrite allChars_append, Hindent, Hgap.
  - apply allChars_wrap; try assumption; try (cbn; now rewrite printable).
    apply Forall_map. eapply Forall_impl; [| exact IH].
    intros [k v] Hv. cbn [fst snd] in *.
    rewrite !allChars_append, allChars_QuoteJSONString, Hv.
    + destruct (gap =? ""); cbn; now rewrite !printable.
    + now rewrite allChars_append, Hindent, Hgap.
Qed.

End Alphabet.

Lemma printable_differs (c d : ascii) :
  (nat_of_ascii c <? 32)%nat = true ->
  (32 <=? nat_of_ascii d)%nat = true ->
  differsFrom c d = true.
Proof.
  intros Hc Hd. unfold differsFrom.
  destruct (Ascii.eqb_spec c d) as [-> | _]; [| reflexivity].
  apply Nat.ltb_lt in Hc. apply Nat.leb_le in Hd. lia.
Qed.

Lemma allChars_gapOf (P : ascii -> bool) (space : option Z) :
  P " "%char = true -> allChars P (JSON.gapOf space) = true.
Proof.
  intros Hsp. unfold JSON.gapOf. destruct space as [n |]; [| reflexivity].
  destruct (n <? 1)%Z; [reflexivity |].
  apply allChars_repeatN. cbn. now rewrite Hsp.
Qed.

(* no escape character in a serialization: it is written as a u-escape *)
Lemma stringify_no_escape (v : JSON.value) (space : option Z) :
  JS.count "027" (JSON.stringify v space) = 0.
Proof.
  apply count_zero_allChars. unfold JSON.stringify.
  apply allChars_SerializeJSONProperty.
  - intros d. now apply printable_differs.
  - now apply allChars_gapOf.
  - now right.
  - reflexivity.
Qed.

(* no newline in the compact serialization *)
Lemma stringify_compact_one_line (v : JSON.value) :
  JS.count "010" (JSON.stringify v None) = 0.
Proof.
  apply count_zero_allChars. unfold JSON.stringify.
  apply allChars_SerializeJSONProperty.
  - intros d. now apply printable_differs.
  - reflexivity.
  - now left.
  - reflexivity.
Qed.

(** ** logJSON, unfolded *)

Lemma logJSON_unfolded (l : Logger) type v indentLength tr :
  getPrefixForTypeOverride l = None ->
  logJSON l type v indentLength tr
  = (notify l type (JSON.stringify v None) ;;;
     consoleFunction l
       (JS.LF ++ decorated l type None (prefixTextOf type None) ++ " "
          ++ JS.replaceAll (jsonTextOf l v indentLength) JS.LF
               (JS.LF ++ continuation l type ++ " "))) tr.
Proof.
  intros Hov. unfold logJSON, bind.
  destruct (notify l type (JSON.stringify v None) tr) as [[e | []] tr1]; [reflexivity |].
  rewrite (getPrefixForType_fits l type None None tr1 Hov (typeName_fits type)).
  rewrite (getPrefixForType_fits l type None (Some "") tr1 Hov (empty_text_fits type)).
  reflexivity.
Qed.

(** C7: with an onLog callback configured, logJSON calls it once with the
    type and the compact serialization of the value (the one without a space
    argument), before anything else it does: the indented serialization, the
    colors, the prefixes and the write all come after.  With the recording
    callback and the capturing sink the events are that notification followed
    by one write. *)
Theorem logJSON_notifies_compact_first :
  forall (l : Logger) (callback : LoggerType -> string -> M unit)
         (type : LoggerType) (v : JSON.value) (indentLength : option Z) (tr : list event),
    onLog l = Some callback ->
    logJSON l type v indentLength tr
    = (callback type (JSON.SerializeJSONProperty "" "" v) ;;;
       logJSON (withoutOnLog l) type v indentLength) tr
    /\ JS.count "010" (JSON.SerializeJSONProperty "" "" v) = 0
    /\ JS.count "027" (JSON.SerializeJSONProperty "" "" v) = 0
    /\ forall useColor,
        exists line,
          logJSON (mkLogger useColor captureSink (Some recordOnLog) None)
            type v indentLength tr
          = (inr tt,
             (tr ++ [Logged type (JSON.SerializeJSONProperty "" "" v); Wrote line])%list).
Proof.
  intros l callback type v indentLength tr Hcb.
  split; [| split; [apply (stringify_compact_one_line v) |
                    split; [apply (stringify_no_escape v None) |]]].
  - unfold logJSON, notify, withoutOnLog, getPrefixForType, plain, bind; simpl.
    rewrite Hcb.
    change (JSON.stringify v None) with (JSON.SerializeJSONProperty "" "" v).
    destruct (callback type (JSON.SerializeJSONProperty "" "" v) tr) as [[e | []] tr1];
      reflexivity.
  - intros uc. eexists. rewrite logJSON_unfolded by reflexivity.
    unfold bind, notify, recordOnLog, captureSink, emit; simpl.
    rewrite <- app_assoc. reflexivity.
Qed.

Lemma logJSON_notifies_compact_first_witness :
  exists line,
    logJSON (mkLogger false captureSink (Some recordOnLog) None) info
      (JSON.JObject [("a", JSON.JArray [JSON.JNumber 1; JSON.JNull])]) (Some 2%Z) []
    = (inr tt, [Logged info (String "{" (String "034" (String "a" (String "034" ":[1,null]}"))));
                Wrote line]).
Proof.
  destruct (logJSON_notifies_compact_first
              (mkLogger false captureSink (Some recordOnLog) None) recordOnLog info
              (JSON.JObject [("a", JSON.JArray [JSON.JNumber 1; JSON.JNull])]) (Some 2%Z) []
              eq_refl) as (_ & _ & _ & H).
  exact (H false).
Defined.

(** ** The continuation lines *)

Lemma continuation_colored (l : Logger) type :
  continuation l type
  = if useColor l then colorType type "        |" else "        |".
Proof. unfold continuation, decorated, effectiveColor. now destruct (useColor l). Qed.

Lemma continuation_inert (l : Logger) type :
  JS.count "$" (continuation l type ++ " ") = 0
  /\ JS.count "010" (continuation l type ++ " ") = 0.
Proof. rewrite continuation_colored. destruct (useColor l), type; split; reflexivity. Qed.

(* the line of logJSON on a logger without a prefix override function *)
Lemma logJSON_line (l : Logger) type v indentLength tr :
  getPrefixForTypeOverride l = None ->
  logJSON l type v indentLength tr
  = (notify l type (JSON.stringify v None) ;;;
     consoleFunction l
       (JS.LF ++ decorated l type None (prefixTextOf type None) ++ " "
          ++ afterEachNewline (continuation l type ++ " ") (jsonTextOf l v indentLength))) tr.
Proof.
  intros Hov. destruct (continuation_inert l type) as [Hdollar _].
  rewrite logJSON_unfolded by exact Hov.
  rewrite <- append_assoc, replaceAll_newline by exact Hdollar.
  reflexivity.
Qed.


(** C2 (as the code has it): on a logger without a prefix override function,
    the string logJSON hands to the sink is a newline, the prefix of the type,
    a space, and the serialized (and, with color, colorized) text in which
    every newline is immediately followed by the prefix the logger returns for
    the empty prefix text under its own color setting, and a space.  That
    prefix is eight spaces and the bar; it is uncolored when the logger does
    not use color and wrapped in the color of the type when it does. *)
Theorem logJSON_realigns_continuation_lines :
  forall (l : Logger) (type : LoggerType) (v : JSON.value) (indentLength : option Z)
         (tr : list event),
    getPrefixForTypeOverride l = None ->
    logJSON l type v indentLength tr
    = (notify l type (JSON.stringify v None) ;;;
       consoleFunction l
         (JS.LF ++ decorated l type None (prefixTextOf type None) ++ " "
            ++ afterEachNewline (continuation l type ++ " ") (jsonTextOf l v indentLength))) tr
    /\ (forall a b,
          afterEachNewline (continuation l type ++ " ") (jsonTextOf l v indentLength)
          = a ++ JS.LF ++ b ->
          prefix (continuation l type ++ " ") b = true)
    /\ getPrefixForType l type None (Some "") tr = (inr (continuation l type), tr)
    /\ continuation l type
       = (if useColor l then typeColor type ++ "        |" ++ resetCode else "        |").
Proof.
  intros l type v indentLength tr Hov.
  destruct (continuation_inert l type) as [Hdollar Hnl].
  split; [| split; [| split]].
  - rewrite logJSON_unfolded by exact Hov.
    rewrite <- append_assoc, replaceAll_newline by exact Hdollar.
    reflexivity.
  - intros a b Heq. exact (newline_followed _ _ _ _ Hnl Heq).
  - apply getPrefixForType_fits; [exact Hov | apply empty_text_fits].
  - apply continuation_colored.
Qed.

Lemma logJSON_realigns_continuation_lines_witness :
  logJSON (newLogger false captureSink) info
    (JSON.JObject [("a", JSON.JNumber 1)]) (Some 2%Z) []
  = (inr tt,
     [Wrote (JS.LF ++ "INFO    | {" ++ JS.LF
             ++ "        |   " ++ JS.DQ ++ "a" ++ JS.DQ ++ ": 1" ++ JS.LF
             ++ "        | }")]).
Proof.
  destruct (logJSON_realigns_continuation_lines (newLogger false captureSink) info
              (JSON.JObject [("a", JSON.JNumber 1)]) (Some 2%Z) [] eq_refl) as [H _].
  rewrite H. reflexivity.
Defined.

(** C2 as stated fails: with color in use, a newline of the serialized text is
    followed by the color code of the type, not by the uncolored prefix. *)
Lemma logJSON_continuation_takes_the_logger_color :
  getPrefixForType (newLogger true captureSink) info (Some false) (Some "") []
    = (inr "        |", [])
  /\ ~ (forall out a b,
          written (snd (logJSON (newLogger true captureSink) info
                          (JSON.JArray [JSON.JArray []]) None [])) = [out] ->
          out = a ++ JS.LF ++ b ->
          a <> "" ->
          prefix "        |" b = true).
Proof.
  split; [reflexivity |].
  intros H.
  specialize (H _
    (JS.LF ++ typeColor info ++ "INFO    |" ++ resetCode ++ " [")
    (typeColor info ++ "        |" ++ resetCode ++ "     []" ++ JS.LF
       ++ typeColor info ++ "        |" ++ resetCode ++ " ]")
    eq_refl eq_refl).
  assert (Hne : JS.LF ++ typeColor info ++ "INFO    |" ++ resetCode ++ " [" <> "")
    by discriminate.
  specialize (H Hne). vm_compute in H. discriminate H.
Qed.

(** C8: on a logger that does not use color and has no prefix override
    function, the string logJSON hands to the sink is a newline, the padded
    uppercase label and the bar, a space, and the indented serialization of
    the value with eight spaces, the bar and a space after each of its
    newlines: nothing else is put in.  It contains no escape character at
    all; the serialization of the value contains none either, since JSON
    writes the escape character as a u-escape. *)
Theorem logJSON_without_color_has_no_escape :
  forall (l : Logger) (type : LoggerType) (v : JSON.value) (indentLength : option Z)
         (tr : list event),
    useColor l = false ->
    getPrefixForTypeOverride l = None ->
    exists line,
      logJSON l type v indentLength tr
      = (notify l type (JSON.stringify v None) ;;; consoleFunction l line) tr
      /\ line
         = JS.LF ++ padded (JS.toUpperCase (typeName type)) ++ " "
             ++ afterEachNewline "        | "
                  (JSON.stringify v
                     (Some (match indentLength with Some n => n | None => 4%Z end)))
      /\ JS.count "027" line = 0
      /\ (forall space, JS.count "027" (JSON.stringify v space) = 0).
Proof.
  intros l type v indentLength tr Hcolor Hov.
  pose proof (logJSON_line l type v indentLength tr Hov) as Hrun.
  pose proof (continuation_colored l type) as Hcont.
  eexists. split; [exact Hrun |].
  assert (Hline :
            JS.LF ++ decorated l type None (prefixTextOf type None) ++ " "
              ++ afterEachNewline (continuation l type ++ " ") (jsonTextOf l v indentLength)
            = JS.LF ++ padded (JS.toUpperCase (typeName type)) ++ " "
                ++ afterEachNewline "        | "
                     (JSON.stringify v
                        (Some (match indentLength with Some n => n | None => 4%Z end)))).
  { unfold decorated, effectiveColor, jsonTextOf. now rewrite Hcont, Hcolor. }
  split; [exact Hline |]. split; [| intros space; apply stringify_no_escape].
  rewrite Hline. apply count_zero_allChars.
  rewrite !allChars_append, allChars_afterEachNewline;
    [| reflexivity | apply count_zero_allChars, stringify_no_escape].
  destruct type; reflexivity.
Qed.

Lemma logJSON_without_color_has_no_escape_witness :
  exists line,
    logJSON (newLogger false captureSink) debug
      (JSON.JArray [JSON.JString (JS.ESC ++ "[31mred")]) None []
    = (inr tt, [Wrote line])
    /\ JS.count "027" line = 0.
Proof.
  destruct (logJSON_without_color_has_no_escape (newLogger false captureSink) debug
              (JSON.JArray [JSON.JString (JS.ESC ++ "[31mred")]) None [] eq_refl eq_refl)
    as (line & Hrun & _ & Hcount & _).
  exists line. split; [exact Hrun | exact Hcount].
Defined.

(** ** Colors *)

Lemma replaceAllFrom_literal (search template : string) :
  JS.count "$" template = 0 ->
  forall text before skip,
    JS.replaceAllFrom search template before skip text
    = replaceEveryFrom search template skip text.
Proof.
  intros Hclean. induction text as [| c text IH]; intros before skip.
  - cbn [JS.replaceAllFrom replaceEveryFrom].
    destruct skip; [| reflexivity].
    destruct (search =? ""); [apply GetSubstitution_no_dollar, Hclean | reflexivity].
  - cbn [JS.replaceAllFrom replaceEveryFrom].
    destruct skip as [| k]; [| apply IH].
    rewrite !IH, !GetSubstitution_no_dollar by exact Hclean.
    reflexivity.
Qed.

Lemma count_tail_zero (c d : ascii) (s : string) :
  JS.count c (String d s) = 0 -> JS.count c s = 0.
Proof. cbn [JS.count]. lia. Qed.

Lemma count_takeN_zero (c : ascii) (n : nat) (s : string) :
  JS.count c s = 0 -> JS.count c (JS.takeN n s) = 0.
Proof.
  revert s. induction n as [| n IH]; intros [| d s] Hs; try reflexivity.
  cbn [JS.takeN JS.count] in *.
  destruct (Ascii.eqb c d); [discriminate |]. now apply IH.
Qed.

(* a regular expression hands to its continuation a part of the subject:
   what holds of a subject and of its tails holds there *)
Lemma run_continues_clean (c : ascii) (r : Regex.regex) :
  forall s k out,
    JS.count c s = 0 ->
    Regex.run r s k = Some out ->
    exists s', JS.count c s' = 0 /\ k s' = Some out.
Proof.
  induction r as [d | p | r1 IH1 r2 IH2 | r1 IH1 r2 IH2 | r1 IH1 | r1 IH1];
    intros s k out Hs Hrun; cbn [Regex.run] in Hrun.
  - destruct s as [| e s]; [discriminate |].
    destruct (Ascii.eqb d e); [| discriminate].
    exists s. split; [exact (count_tail_zero _ _ _ Hs) | exact Hrun].
  - destruct s as [| e s]; [discriminate |].
    destruct (p e); [| discriminate].
    exists s. split; [exact (count_tail_zero _ _ _ Hs) | exact Hrun].
  - destruct (IH1 _ _ _ Hs Hrun) as (s1 & Hs1 & Hrun2).
    exact (IH2 _ _ _ Hs1 Hrun2).
  - destruct (Regex.run r1 s k) as [out1 |] eqn:Hfirst.
    + injection Hrun as <-. exact (IH1 _ _ _ Hs Hfirst).
    + exact (IH2 _ _ _ Hs Hrun).
  - remember (String.length s) as fuel eqn:Hfuel. clear Hfuel.
    revert s Hs Hrun. induction fuel as [| fuel IHfuel]; intros s Hs Hrun.
    + exists s. split; assumption.
    + match type of Hrun with
      | match ?first with _ => _ end = _ => destruct first as [out1 |] eqn:Hfirst
      end.
      * injection Hrun as <-.
        destruct (IH1 _ _ _ Hs Hfirst) as (s1 & Hs1 & Hk).
        destruct (String.length s1 <? String.length s)%nat; [| discriminate].
        exact (IHfuel s1 Hs1 Hk).
      * exists s. split; assumption.
  - destruct (Regex.run r1 s _) as [out1 |] eqn:Hfirst.
    + injection Hrun as <-.
      destruct (IH1 _ _ _ Hs Hfirst) as (s1 & Hs1 & Hk).
      destruct (String.length s1 <? String.length s)%nat; [| discriminate].
      exists s1. split; assumption.
    + exists s. split; assumption.
Qed.

Lemma scan_clean (c : ascii) (r : Regex.regex) (fuel : nat) :
  forall s, JS.count c s = 0 -> Forall (fun m => JS.count c m = 0) (Regex.scan fuel r s).
Proof.
  induction fuel as [| fuel IH]; intros s Hs; cbn [Regex.scan]; [constructor |].
  assert (Htail : Forall (fun m => JS.count c m = 0)
                    match s with "" => [] | String _ t => Regex.scan fuel r t end).
  { destruct s as [| d t]; [constructor | apply IH, (count_tail_zero _ _ _ Hs)]. }
  destruct (Regex.run r s (fun s' => Some s')) as [s' |] eqn:Hrun; [| exact Htail].
  destruct (run_continues_clean c r _ _ _ Hs Hrun) as (s1 & Hs1 & [= ->]).
  constructor; [apply count_takeN_zero, Hs |].
  destruct (String.length s' <? String.length s)%nat; [apply IH, Hs1 | exact Htail].
Qed.

(** X15: when the serialized text holds no dollar sign, the second loop of
    logJSON does what its wording says: each recorded match, in order, is
    replaced everywhere in the text by its color code, the match itself and
    the reset code, nothing in the replacement being read as a pattern. *)
Lemma colorize_as_specified_without_dollar (jsonText : string) :
  JS.count "$" jsonText = 0 ->
  colorize jsonText = colorizeAsSpecified jsonText.
Proof.
  intros Hclean. unfold colorize, applyMatches, colorizeAsSpecified.
  assert (Hmatches : Forall (fun m => JS.count "$" (snd m ++ fst m ++ resetCode) = 0)
                       (collectMatches jsonText)).
  { unfold collectMatches, colors. cbn [flat_map].
    repeat (apply Forall_app; split); try constructor;
      apply Forall_map; cbn [fst snd];
      (eapply Forall_impl; [| apply scan_clean, Hclean]);
      intros m Hm; rewrite !count_append, Hm; reflexivity. }
  generalize jsonText at 2 4 as text.
  induction Hmatches as [| m rest Hm _ IH]; intros text; [reflexivity |].
  cbn [fold_left]. unfold JS.replaceAll at 2.
  rewrite replaceAllFrom_literal by exact Hm.
  apply IH.
Qed.

(** C3, at an input where the code departs from it: the string value made of
    two dollar signs is matched once, as a string, in green; the algorithm of
    the claim puts the quoted value between the green code and the reset
    code, whereas the code hands the replacement to replaceAll as a
    replacement pattern, which turns the two dollar signs into one, and the
    line written shows a value that was never logged. *)
Theorem logJSON_colorize_rewrites_dollar_text :
  collectMatches (JSON.stringify (JSON.JString "$$") (Some 4%Z))
    = [(JS.DQ ++ "$$" ++ JS.DQ, JS.ESC ++ "[32m")]
  /\ colorizeAsSpecified (JSON.stringify (JSON.JString "$$") (Some 4%Z))
     = JS.ESC ++ "[32m" ++ JS.DQ ++ "$$" ++ JS.DQ ++ JS.ESC ++ "[0m"
  /\ colorize (JSON.stringify (JSON.JString "$$") (Some 4%Z))
     = JS.ESC ++ "[32m" ++ JS.DQ ++ "$" ++ JS.DQ ++ JS.ESC ++ "[0m"
  /\ logJSON (newLogger true captureSink) info (JSON.JString "$$") None []
     = (inr tt,
        [Wrote (JS.LF ++ JS.ESC ++ "[34mINFO    |" ++ JS.ESC ++ "[0m "
                ++ JS.ESC ++ "[32m" ++ JS.DQ ++ "$" ++ JS.DQ ++ JS.ESC ++ "[0m")]).
Proof. repeat split; vm_compute; reflexivity. Qed.

(** ** Failure of the prefix *)



(** ** The bracketed variant *)

Lemma legacy_plain_writes_escape_then_message (l : Legacy.Logger) message lineType tr :
  Legacy.plain l message (Some lineType) tr
  = Legacy.consoleFunction l (escapeSequence lineType ++ message) tr.
Proof. reflexivity. Qed.

(** X18: in the bracketed variant, log with the recording observer and the
    capturing sink never throws and leaves two events: the notification of
    the message as given, then the write of newline, the bracketed type name
    and colon (colored when the logger uses color), a space and the
    message. *)
Lemma legacy_log_notifies_once_before_write (useColor : bool) type message tr :
  Legacy.log (Legacy.mkLogger useColor captureSink (Some recordOnLog) None) type message tr
  = (inr tt,
     (tr ++ [Logged type message;
             Wrote (JS.LF
                    ++ (if useColor then colorType type ("[" ++ typeName type ++ "]:")
                        else "[" ++ typeName type ++ "]:")
                    ++ " " ++ message)])%list).
Proof.
  unfold Legacy.log, Legacy.getPrefixForType, Legacy.plain, bind, recordOnLog, captureSink,
    emit, ret; simpl.
  rewrite <- app_assoc. destruct useColor; reflexivity.
Qed.

(* the bracketed prefix follows the length of the type name *)
Lemma legacy_prefix_width_varies :
  Legacy.getPrefixForType (Legacy.mkLogger false captureSink None None) info None []
    = (inr "[info]:", [])
  /\ Legacy.getPrefixForType (Legacy.mkLogger false captureSink None None) success None []
    = (inr "[success]:", []).
Proof. split; reflexivity. Qed.

(** ** Reading back what was serialized *)







(** *** Numbers *)








(** *** Strings *)


(** *** Objects and arrays *)









(** *** One step of the parser *)









(** *** Members of an object *)




(** *** The round trip, by induction on the value *)







(** *** Enough fuel *)







(** * Further properties of the logger *)

(** ** More on strings *)

Lemma append_cancel_r (a b c : string) : a ++ c = b ++ c -> a = b.
Proof.
  revert b. induction a as [| x a IH]; intros [| y b] H.
  - reflexivity.
  - apply (f_equal String.length) in H. cbn [append String.length] in H.
    rewrite length_append in H. lia.
  - apply (f_equal String.length) in H. cbn [append String.length] in H.
    rewrite length_append in H. lia.
  - cbn [append] in H. injection H as -> H. now rewrite (IH b H).
Qed.

Lemma append_cancel_l (a b c : string) : a ++ b = a ++ c -> b = c.
Proof.
  induction a as [| x a IH]; cbn [append]; intros H; [exact H |].
  injection H as H. now apply IH.
Qed.


Lemma prefix_split (q b : string) : prefix q b = true -> exists y, b = q ++ y.
Proof.
  revert b. induction q as [| c q IH]; intros b H.
  - exists b. reflexivity.
  - destruct b as [| d b]; cbn [prefix] in H; [discriminate |].
    destruct (ascii_dec c d) as [-> | _]; [| discriminate].
    destruct (IH b H) as (y & ->). now exists y.
Qed.

Lemma afterEachNewline_one_line (q text : string) :
  JS.count "010" text = 0 -> afterEachNewline q text = text.
Proof.
  induction text as [| c text IH]; [reflexivity |].
  cbn [JS.count afterEachNewline]. rewrite (Ascii.eqb_sym c "010").
  destruct (Ascii.eqb "010" c); [discriminate |].
  intros H. now rewrite IH.
Qed.

Lemma takeN_append (p x : string) : JS.takeN (String.length p) (p ++ x) = p.
Proof. induction p as [| c p IH]; cbn; [now destruct x | now rewrite IH]. Qed.


Lemma length_colorType (type : LoggerType) (typeString : string) :
  String.length (colorType type typeString) = String.length typeString + 9.
Proof.
  unfold colorType. rewrite !length_append. destruct type; cbn; lia.
Qed.

(** ** colorType *)

(** X1: colorType wraps the text between the color code of the type and the
    reset code, nine code units in all, and loses nothing: from the colored
    string both the type and the text are determined. *)
Theorem colorType_injective :
  forall (t1 t2 : LoggerType) (s1 s2 : string),
    colorType t1 s1 = colorType t2 s2 ->
    t1 = t2 /\ s1 = s2
    /\ String.length (colorType t1 s1) = String.length s1 + 9
    /\ prefix JS.ESC (colorType t1 s1) = true.
Proof.
  intros t1 t2 s1 s2 H.
  assert (Hboth : t1 = t2 /\ s1 = s2).
  { unfold colorType in H.
    destruct t1, t2; cbn [typeColor append JS.ESC] in H;
      try discriminate H; injection H as H;
      (split; [reflexivity | exact (append_cancel_r _ _ _ H)]). }
  split; [apply Hboth |]. split; [apply Hboth |].
  split; [apply length_colorType | now destruct t1].
Qed.

Lemma colorType_injective_witness :
  warn = warn /\ "WARN    |" = "WARN    |"
  /\ String.length (colorType warn "WARN    |") = 18
  /\ prefix JS.ESC (colorType warn "WARN    |") = true.
Proof. exact (colorType_injective warn warn "WARN    |" "WARN    |" eq_refl). Defined.

(** ** The type names *)

(** X2: the two constants computed from the list of types bound the length of
    every type name, and both bounds are attained (misc and success); the
    list holds every type. *)
Theorem typeName_length_bounds :
  (forall type,
      In type loggerTypes
      /\ (smallestLoggerTypeLength <= lengthZ (typeName type) <= largestLoggerTypeLength)%Z)
  /\ lengthZ (typeName misc) = smallestLoggerTypeLength
  /\ lengthZ (typeName success) = largestLoggerTypeLength.
Proof.
  split; [| split; reflexivity].
  intros type. split.
  - destruct type; cbn; tauto.
  - rewrite largest_is_7, smallest_is_4. destruct type; cbn; lia.
Qed.

(** ** The prefix with a text of the caller *)



(** X4: on a logger without a prefix override function, asking for the
    colored prefix gives the uncolored prefix wrapped by colorType, and throws
    exactly when asking for the uncolored one throws. *)
Theorem colored_prefix_wraps_uncolored :
  forall (l : Logger) (type : LoggerType) (text : option string) (tr : list event),
    getPrefixForTypeOverride l = None ->
    getPrefixForType l type (Some true) text tr
    = match getPrefixForType l type (Some false) text tr with
      | (inr p, tr') => (inr (colorType type p), tr')
      | (inl e, tr') => (inl e, tr')
      end.
Proof.
  intros l type text tr Hov.
  destruct (Z.le_gt_cases (lengthZ (prefixTextOf type text)) largestLoggerTypeLength)
    as [Hfit | Hlong].
  - now rewrite !getPrefixForType_fits.
  - now rewrite !getPrefixForType_too_long by (assumption || lia).
Qed.

Lemma colored_prefix_wraps_uncolored_witness :
  getPrefixForType (newLogger false captureSink) debug (Some true) None []
  = (inr (colorType debug "DEBUG   |"), []).
Proof.
  exact (colored_prefix_wraps_uncolored (newLogger false captureSink) debug None [] eq_refl).
Defined.

(** X5: with a prefix override function configured, the logger never builds
    a prefix itself: getPrefixForType is the override applied to the same
    three arguments, log asks it once with no color and no text, and logJSON
    asks it twice, first with no text and then with the empty text, between
    the notification and the one write. *)
Theorem override_replaces_the_prefix :
  forall (l : Logger) (override : LoggerType -> option bool -> option string -> M string)
         (type : LoggerType) (c : option bool) (text : option string)
         (message : string) (v : JSON.value) (indentLength : option Z) (tr : list event),
    getPrefixForTypeOverride l = Some override ->
    getPrefixForType l type c text tr = override type c text tr
    /\ log l type message tr
       = (notify l type message ;;;
          p <- override type None None ;;
          consoleFunction l (JS.LF ++ p ++ " " ++ message)) tr
    /\ logJSON l type v indentLength tr
       = (notify l type (JSON.stringify v None) ;;;
          first <- override type None None ;;
          continued <- override type None (Some "") ;;
          consoleFunction l
            (JS.LF ++ first ++ " "
               ++ JS.replaceAll (jsonTextOf l v indentLength) JS.LF
                    (JS.LF ++ continued ++ " "))) tr.
Proof.
  intros l override type c text message v indentLength tr Hov.
  unfold log, logJSON, getPrefixForType, plain, jsonTextOf. rewrite Hov.
  repeat split.
Qed.

Lemma override_replaces_the_prefix_witness :
  log (mkLogger true captureSink None (Some (fun _ _ _ => ret ">>"))) error "stop" []
  = (inr tt, [Wrote (String "010" ">> stop")]).
Proof.
  destruct (override_replaces_the_prefix
              (mkLogger true captureSink None (Some (fun _ _ _ => ret ">>")))
              (fun _ _ _ => ret ">>") error None None "stop" JSON.JNull None [] eq_refl)
    as (_ & H & _).
  rewrite H. reflexivity.
Defined.

(** ** Callbacks that throw *)

(** X6: the observer runs first, so when it throws nothing is written: log
    and logJSON end with its error and the events it left, and neither the
    prefix nor the sink is reached. *)
Theorem observer_failure_stops_the_log :
  forall (l : Logger) (callback : LoggerType -> string -> M unit)
         (type : LoggerType) (message : string) (v : JSON.value) (indentLength : option Z)
         (tr tr' : list event) (e : JS.error),
    onLog l = Some callback ->
    (callback type message tr = (inl e, tr') -> log l type message tr = (inl e, tr'))
    /\ (callback type (JSON.stringify v None) tr = (inl e, tr') ->
        logJSON l type v indentLength tr = (inl e, tr')).
Proof.
  intros l callback type message v indentLength tr tr' e Hcb.
  unfold log, logJSON, notify, bind. rewrite Hcb.
  split; intros ->; reflexivity.
Qed.

Lemma observer_failure_stops_the_log_witness :
  log (mkLogger false captureSink (Some failingOnLog) None) info "lost" []
    = (inl (JS.Thrown "observer"), [])
  /\ logJSON (mkLogger false captureSink (Some failingOnLog) None) info
       (JSON.JArray [JSON.JNumber 1]) None []
     = (inl (JS.Thrown "observer"), []).
Proof.
  destruct (observer_failure_stops_the_log
              (mkLogger false captureSink (Some failingOnLog) None) failingOnLog info "lost"
              (JSON.JArray [JSON.JNumber 1]) None [] [] (JS.Thrown "observer") eq_refl)
    as [Hlog HlogJSON].
  split; [apply Hlog | apply HlogJSON]; reflexivity.
Defined.

(** X7: a sink that throws makes log and logJSON throw the same error, after
    the observer has been notified: on a logger without a prefix override
    function the events are those of the notification alone. *)
Theorem sink_failure_follows_notification :
  forall (useColor : bool) (sink : string -> M unit) (type : LoggerType)
         (message : string) (v : JSON.value) (indentLength : option Z)
         (tr : list event) (e : JS.error),
    (forall text tr0, sink text tr0 = (inl e, tr0)) ->
    log (mkLogger useColor sink (Some recordOnLog) None) type message tr
      = (inl e, (tr ++ [Logged type message])%list)
    /\ logJSON (mkLogger useColor sink (Some recordOnLog) None) type v indentLength tr
       = (inl e, (tr ++ [Logged type (JSON.stringify v None)])%list).
Proof.
  intros uc sink type message v indentLength tr e Hsink. split.
  - rewrite log_unfolded by reflexivity.
    unfold bind, notify, recordOnLog, emit; cbn [onLog consoleFunction]. apply Hsink.
  - rewrite logJSON_line by reflexivity.
    unfold bind, notify, recordOnLog, emit; cbn [onLog consoleFunction]. apply Hsink.
Qed.

Lemma sink_failure_follows_notification_witness :
  log (mkLogger true failingSink (Some recordOnLog) None) warn "disk" []
  = (inl (JS.Thrown "sink"), [Logged warn "disk"]).
Proof.
  apply (sink_failure_follows_notification true failingSink warn "disk" JSON.JNull None []
           (JS.Thrown "sink")).
  reflexivity.
Defined.

(** ** plain and log *)

(** X8: plain does not call onLog and asks for no prefix: whatever observer
    and prefix override function are configured, even ones that throw, it
    hands one string to the sink and that is all it does. *)
Theorem plain_only_writes :
  forall (useColor : bool)
         (callback : option (LoggerType -> string -> M unit))
         (override : option (LoggerType -> option bool -> option string -> M string))
         (message : string) (lineType : LineType) (tr : list event),
    plain (mkLogger useColor captureSink callback override) message (Some lineType) tr
    = (inr tt, (tr ++ [Wrote (escapeSequence lineType ++ message)])%list)
    /\ plain (mkLogger useColor captureSink callback override) message None tr
       = (inr tt, (tr ++ [Wrote (JS.LF ++ message)])%list)
    /\ plain brokenPrefixLogger message (Some lineType) tr
       = (inr tt, (tr ++ [Wrote (escapeSequence lineType ++ message)])%list).
Proof. intros. repeat split. Qed.

(** X9: on a logger without a prefix override function and with the
    capturing sink, log never throws and writes one string for every type
    and message: newline, the prefix of 9 (18 with color) code units, a
    space, and the message as it stands.  Dropping the first 11 (20) code
    units of the line gives the message back. *)
Theorem log_line_holds_the_message :
  forall (color : bool) (type : LoggerType) (message : string) (tr : list event),
    exists line,
      log (newLogger color captureSink) type message tr
      = (inr tt, (tr ++ [Wrote line])%list)
      /\ line
         = JS.LF
             ++ (if color then colorType type (padded (JS.toUpperCase (typeName type)))
                 else padded (JS.toUpperCase (typeName type)))
             ++ " " ++ message
      /\ JS.dropN (if color then 20 else 11) line = message.
Proof.
  intros uc type message tr. eexists. split; [| split].
  - rewrite log_unfolded by reflexivity. reflexivity.
  - unfold decorated, effectiveColor, prefixTextOf. cbn [useColor newLogger]. reflexivity.
  - unfold decorated, effectiveColor. cbn [useColor newLogger].
    destruct uc, type; reflexivity.
Qed.

(** ** The indent of logJSON *)

Lemma stringify_indent_below_one (v : JSON.value) (n : Z) :
  (n < 1)%Z -> JSON.stringify v (Some n) = JSON.stringify v None.
Proof.
  intros Hn. unfold JSON.stringify, JSON.gapOf.
  destruct (Z.ltb_spec n 1); [reflexivity | lia].
Qed.

Lemma stringify_indent_above_ten (v : JSON.value) (n : Z) :
  (10 <= n)%Z -> JSON.stringify v (Some n) = JSON.stringify v (Some 10%Z).
Proof.
  intros Hn. unfold JSON.stringify, JSON.gapOf.
  destruct (Z.ltb_spec n 1); [lia |].
  rewrite Z.min_l by exact Hn. reflexivity.
Qed.

(** X10: an indent length below one gives a single line: logJSON then does
    what it does with indent length zero, and on a logger without color and
    without a prefix override function the line is newline, prefix, space and
    the compact serialization, with no continuation line. *)
Theorem logJSON_indent_below_one_is_one_line :
  forall (l : Logger) (type : LoggerType) (v : JSON.value) (n : Z) (tr : list event),
    (n < 1)%Z ->
    logJSON l type v (Some n) tr = logJSON l type v (Some 0%Z) tr
    /\ (useColor l = false ->
        getPrefixForTypeOverride l = None ->
        logJSON l type v (Some n) tr
        = (notify l type (JSON.stringify v None) ;;;
           consoleFunction l
             (JS.LF ++ padded (JS.toUpperCase (typeName type)) ++ " "
                ++ JSON.stringify v None)) tr
        /\ JS.count "010" (JSON.stringify v None) = 0).
Proof.
  intros l type v n tr Hn. split.
  - unfold logJSON. rewrite (stringify_indent_below_one v n Hn).
    rewrite (stringify_indent_below_one v 0) by lia. reflexivity.
  - intros Hcolor Hov. split; [| apply stringify_compact_one_line].
    rewrite logJSON_line by exact Hov.
    unfold jsonTextOf, decorated, effectiveColor, prefixTextOf. rewrite Hcolor.
    rewrite (stringify_indent_below_one v n Hn).
    rewrite afterEachNewline_one_line by apply stringify_compact_one_line.
    reflexivity.
Qed.

Lemma logJSON_indent_below_one_is_one_line_witness :
  logJSON (newLogger false captureSink) misc
    (JSON.JArray [JSON.JNumber 1; JSON.JArray [JSON.JBool true]]) (Some (-3)%Z) []
  = (inr tt, [Wrote (String "010" "MISC    | [1,[true]]")]).
Proof.
  destruct (logJSON_indent_below_one_is_one_line (newLogger false captureSink) misc
              (JSON.JArray [JSON.JNumber 1; JSON.JArray [JSON.JBool true]]) (-3)%Z []
              eq_refl) as [_ H].
  destruct (H eq_refl eq_refl) as [Hrun _]. rewrite Hrun. reflexivity.
Defined.

(** X11: an indent length of ten or more indents by ten spaces: logJSON does
    with it what it does with indent length ten. *)
Theorem logJSON_indent_is_capped_at_ten :
  forall (l : Logger) (type : LoggerType) (v : JSON.value) (n : Z) (tr : list event),
    (10 <= n)%Z ->
    logJSON l type v (Some n) tr = logJSON l type v (Some 10%Z) tr.
Proof.
  intros l type v n tr Hn. unfold logJSON.
  now rewrite (stringify_indent_above_ten v n Hn).
Qed.

Lemma logJSON_indent_is_capped_at_ten_witness :
  logJSON (newLogger false captureSink) info (JSON.JArray [JSON.JNull]) (Some 64%Z) []
  = (inr tt,
     [Wrote (JS.LF ++ "INFO    | [" ++ JS.LF
             ++ "        |           null" ++ JS.LF ++ "        | ]")]).
Proof.
  rewrite (logJSON_indent_is_capped_at_ten (newLogger false captureSink) info
             (JSON.JArray [JSON.JNull]) 64%Z []); [reflexivity | discriminate].
Defined.

(** ** What the observer of logJSON receives *)



(** ** logJSON and log *)

(** X13: on a logger without a prefix override function, logJSON writes what
    log without the observer writes for the re-indented text as its message;
    the observer is the only difference, as it gets the compact
    serialization. *)
Theorem logJSON_is_log_of_the_realigned_text :
  forall (l : Logger) (type : LoggerType) (v : JSON.value) (indentLength : option Z)
         (tr : list event),
    getPrefixForTypeOverride l = None ->
    logJSON l type v indentLength tr
    = (notify l type (JSON.stringify v None) ;;;
       log (withoutOnLog l) type
         (afterEachNewline (continuation l type ++ " ") (jsonTextOf l v indentLength))) tr.
Proof.
  intros l type v indentLength tr Hov.
  rewrite logJSON_line by exact Hov. unfold bind.
  destruct (notify l type (JSON.stringify v None) tr) as [[e | []] tr1]; [reflexivity |].
  rewrite log_unfolded by exact Hov. reflexivity.
Qed.

Lemma logJSON_is_log_of_the_realigned_text_witness :
  logJSON (newLogger false captureSink) info (JSON.JArray [JSON.JNull]) (Some 1%Z) []
  = log (newLogger false captureSink) info
      ("[" ++ JS.LF ++ "        |  null" ++ JS.LF ++ "        | ]") [].
Proof.
  rewrite (logJSON_is_log_of_the_realigned_text (newLogger false captureSink) info
             (JSON.JArray [JSON.JNull]) (Some 1%Z) [] eq_refl).
  reflexivity.
Defined.

(** X14: without color and without a prefix override function, every line of
    what logJSON writes has the bar in the same column: after each newline
    of the string, the first one included, come eight code units of label or
    spaces and then the bar. *)
Theorem logJSON_bar_column :
  forall (l : Logger) (type : LoggerType) (v : JSON.value) (indentLength : option Z)
         (tr : list event),
    useColor l = false ->
    getPrefixForTypeOverride l = None ->
    exists line,
      logJSON l type v indentLength tr
      = (notify l type (JSON.stringify v None) ;;; consoleFunction l line) tr
      /\ forall a b, line = a ++ JS.LF ++ b -> String.get 8 b = Some "|"%char.
Proof.
  intros l type v indentLength tr Hcolor Hov.
  eexists. split; [apply logJSON_line, Hov |].
  intros a b Heq.
  rewrite continuation_colored in Heq.
  unfold decorated, effectiveColor in Heq. rewrite Hcolor in Heq.
  destruct a as [| d a]; cbn [append JS.LF] in Heq.
  - injection Heq as <-. destruct type; reflexivity.
  - injection Heq as _ Hrest.
    assert (Hrest' : (padded (prefixTextOf type None) ++ " ")
                       ++ afterEachNewline ("        |" ++ " ") (jsonTextOf l v indentLength)
                     = a ++ JS.LF ++ b)
      by (rewrite append_assoc; exact Hrest).
    assert (Hclean : JS.count "010" (padded (prefixTextOf type None) ++ " ") = 0)
      by (destruct type; reflexivity).
    destruct (append_split_no_newline _ _ _ _ Hclean Hrest') as (a' & _ & Hbody).
    assert (Hq : JS.count "010" ("        |" ++ " ") = 0) by reflexivity.
    destruct (prefix_split _ _ (newline_followed _ _ _ _ Hq Hbody)) as (y & ->).
    reflexivity.
Qed.

Lemma logJSON_bar_column_witness :
  exists line,
    logJSON (newLogger false captureSink) error
      (JSON.JObject [("code", JSON.JNumber 7)]) None []
    = (inr tt, [Wrote line])
    /\ forall a b, line = a ++ JS.LF ++ b -> String.get 8 b = Some "|"%char.
Proof.
  exact (logJSON_bar_column (newLogger false captureSink) error
           (JSON.JObject [("code", JSON.JNumber 7)]) None [] eq_refl eq_refl).
Defined.

(** ** The matches of the colorizer *)

Lemma colorize_as_specified_without_dollar_witness :
  colorize (JSON.stringify (JSON.JObject [("a", JSON.JArray [JSON.JNumber 1; JSON.JNull])])
              (Some 2%Z))
  = colorizeAsSpecified
      (JSON.stringify (JSON.JObject [("a", JSON.JArray [JSON.JNumber 1; JSON.JNull])])
         (Some 2%Z)).
Proof. apply colorize_as_specified_without_dollar. reflexivity. Defined.

Lemma append_nonempty (p1 p2 : string) : p1 <> "" \/ p2 <> "" -> p1 ++ p2 <> "".
Proof. destruct p1; [now intros [H | H] | discriminate]. Qed.

(* a match of a regular expression is a part of the subject at its front:
   the continuation gets what follows it *)
Lemma run_consumes (r : Regex.regex) :
  forall s k out,
    Regex.run r s k = Some out ->
    exists p s',
      s = p ++ s' /\ k s' = Some out /\ (nonNullable r = true -> p <> "").
Proof.
  induction r as [d | q | r1 IH1 r2 IH2 | r1 IH1 r2 IH2 | r1 IH1 | r1 IH1];
    intros s k out Hrun; cbn [Regex.run] in Hrun.
  - destruct s as [| e s]; [discriminate |].
    destruct (Ascii.eqb d e); [| discriminate].
    exists (String e ""), s. repeat split; [exact Hrun | discriminate].
  - destruct s as [| e s]; [discriminate |].
    destruct (q e); [| discriminate].
    exists (String e ""), s. repeat split; [exact Hrun | discriminate].
  - destruct (IH1 _ _ _ Hrun) as (p1 & s1 & -> & Hrun2 & Hn1).
    destruct (IH2 _ _ _ Hrun2) as (p2 & s2 & -> & Hk & Hn2).
    exists (p1 ++ p2), s2. split; [now rewrite append_assoc |]. split; [exact Hk |].
    cbn [nonNullable]. intros Hn. apply append_nonempty.
    apply orb_prop in Hn as [Hn | Hn]; [left; now apply Hn1 | right; now apply Hn2].
  - cbn [nonNullable].
    destruct (Regex.run r1 s k) as [out1 |] eqn:Hfirst.
    + injection Hrun as <-. destruct (IH1 _ _ _ Hfirst) as (p & s' & Hs & Hk & Hn).
      exists p, s'. repeat split; try assumption.
      intros Hboth. apply andb_prop in Hboth as [H1 _]. now apply Hn.
    + destruct (IH2 _ _ _ Hrun) as (p & s' & Hs & Hk & Hn).
      exists p, s'. repeat split; try assumption.
      intros Hboth. apply andb_prop in Hboth as [_ H2]. now apply Hn.
  - assert (Hloop : exists p s', s = p ++ s' /\ k s' = Some out).
    { remember (String.length s) as fuel eqn:Hfuel. clear Hfuel.
      revert s Hrun. induction fuel as [| fuel IHfuel]; intros s Hrun.
      - exists "", s. now split.
      - match type of Hrun with
        | match ?first with _ => _ end = _ => destruct first as [out1 |] eqn:Hfirst
        end.
        + injection Hrun as <-.
          destruct (IH1 _ _ _ Hfirst) as (p1 & s1 & -> & Hk & _).
          destruct (String.length s1 <? String.length (p1 ++ s1))%nat; [| discriminate].
          destruct (IHfuel s1 Hk) as (p2 & s2 & -> & Hk2).
          exists (p1 ++ p2), s2. split; [now rewrite append_assoc | exact Hk2].
        + exists "", s. now split. }
    destruct Hloop as (p & s' & Hs & Hk). exists p, s'. repeat split; try assumption.
    discriminate.
  - destruct (Regex.run r1 s _) as [out1 |] eqn:Hfirst.
    + injection Hrun as <-.
      destruct (IH1 _ _ _ Hfirst) as (p1 & s1 & -> & Hk & _).
      destruct (String.length s1 <? String.length (p1 ++ s1))%nat; [| discriminate].
      exists p1, s1. repeat split; [exact Hk | discriminate].
    + exists "", s. repeat split; [exact Hrun | discriminate].
Qed.

Lemma scan_matches (text : string) (r : Regex.regex) (fuel : nat) :
  forall s a,
    text = a ++ s ->
    Forall (fun m => (nonNullable r = true -> m <> "")
                     /\ exists a' b', text = a' ++ m ++ b')
           (Regex.scan fuel r s).
Proof.
  induction fuel as [| fuel IH]; intros s a Htext; cbn [Regex.scan]; [constructor |].
  assert (Htail : Forall (fun m => (nonNullable r = true -> m <> "")
                                   /\ exists a' b', text = a' ++ m ++ b')
                    match s with "" => [] | String _ t => Regex.scan fuel r t end).
  { destruct s as [| c t]; [constructor |].
    apply (IH t (a ++ String c "")). now rewrite append_assoc. }
  destruct (Regex.run r s (fun s' => Some s')) as [s' |] eqn:Hrun; [| exact Htail].
  destruct (run_consumes r _ _ _ Hrun) as (p & s'' & -> & [= ->] & Hn).
  replace (String.length (p ++ s') - String.length s') with (String.length p)
    by (rewrite length_append; lia).
  rewrite takeN_append. constructor.
  - split; [exact Hn | exists a, s'; exact Htext].
  - destruct (String.length s' <? String.length (p ++ s'))%nat; [| exact Htail].
    apply (IH s' (a ++ p)). now rewrite append_assoc.
Qed.

(** X16: every match the first loop of logJSON records is a non-empty part
    of the serialized text, with one of the three colors; so the second loop
    never calls replaceAll with an empty search string. *)
Theorem recorded_matches_are_nonempty_parts :
  forall (jsonText text color : string),
    In (text, color) (collectMatches jsonText) ->
    text <> ""
    /\ (exists a b, jsonText = a ++ text ++ b)
    /\ In color [JS.ESC ++ "[34m"; JS.ESC ++ "[32m"; JS.ESC ++ "[33m"].
Proof.
  intros jsonText text color Hin.
  unfold collectMatches, colors in Hin. cbn [flat_map fst snd] in Hin.
  assert (Hregex : forall r c,
             nonNullable r = true ->
             In (text, color) (map (fun t => (t, c)) (Regex.matches r jsonText)) ->
             text <> "" /\ (exists a b, jsonText = a ++ text ++ b) /\ color = c).
  { intros r c Hr Hmap. apply in_map_iff in Hmap as (m & [= -> ->] & Hm).
    pose proof (scan_matches jsonText r (S (String.length jsonText)) jsonText "" eq_refl)
      as Hall.
    rewrite Forall_forall in Hall. destruct (Hall _ Hm) as [Hne Hpart].
    split; [now apply Hne | split; [exact Hpart | reflexivity]]. }
  repeat (apply in_app_or in Hin as [Hin | Hin]);
    try (apply Hregex in Hin as (Hne & Hpart & ->); [| reflexivity];
         split; [exact Hne | split; [exact Hpart | cbn; tauto]]).
  destruct Hin.
Qed.

Lemma recorded_matches_are_nonempty_parts_witness :
  JS.DQ ++ "a" ++ JS.DQ ++ ":" <> ""
  /\ (exists a b,
        JSON.stringify (JSON.JObject [("a", JSON.JNull)]) None
        = a ++ (JS.DQ ++ "a" ++ JS.DQ ++ ":") ++ b)
  /\ In (JS.ESC ++ "[34m") [JS.ESC ++ "[34m"; JS.ESC ++ "[32m"; JS.ESC ++ "[33m"].
Proof.
  apply (recorded_matches_are_nonempty_parts
           (JSON.stringify (JSON.JObject [("a", JSON.JNull)]) None)
           (JS.DQ ++ "a" ++ JS.DQ ++ ":") (JS.ESC ++ "[34m")).
  vm_compute. left. reflexivity.
Defined.

(** ** The bracketed variant, further *)

(** X17: in the bracketed variant, on a logger without a prefix override
    function, the prefix is the type name between brackets and a colon: its
    length is that of the type name plus three, and nine more with color, so
    it varies with the type. *)
Theorem legacy_prefix_width_follows_the_name :
  forall (l : Legacy.Logger) (type : LoggerType) (c : option bool) (tr : list event),
    Legacy.getPrefixForTypeOverride l = None ->
    exists p,
      Legacy.getPrefixForType l type c tr = (inr p, tr)
      /\ String.length p
         = String.length (typeName type) + 3
           + (if match c with None => Legacy.useColor l | Some b => b end then 9 else 0).
Proof.
  intros l type c tr Hov. unfold Legacy.getPrefixForType. rewrite Hov.
  eexists. split; [reflexivity |].
  destruct (match c with None => Legacy.useColor l | Some b => b end).
  - rewrite length_colorType, !length_append. cbn [String.length]. lia.
  - rewrite !length_append. cbn [String.length]. lia.
Qed.

Lemma legacy_prefix_width_follows_the_name_witness :
  exists p,
    Legacy.getPrefixForType (Legacy.mkLogger false captureSink None None) success None []
    = (inr p, [])
    /\ String.length p = 10.
Proof.
  exact (legacy_prefix_width_follows_the_name (Legacy.mkLogger false captureSink None None)
           success None [] eq_refl).
Defined.
